(** * nsJXLRustDecoder: a shallow embedding of the streaming JPEG XL driver

    Source: image/decoders/nsJXLRustDecoder.{h,cpp}.

    The Rust decoding engine (jxl_rust.h) and the surface pipe
    (SurfacePipeFactory / SurfacePipe) are opaque collaborators: each is a
    record of functions over an abstract state, and every theorem below holds
    for all of them.  The driver itself, [ReadJXLData] and [FinishedJXLData],
    is translated line by line; its observable effects (engine calls, posts to
    the image, row writes) are recorded in a trace of [Event]s. *)

From Stdlib Require Import List ZArith Bool Lia Strings.Byte.
Import ListNotations.
Open Scope Z_scope.

Module JXL.

(** ** Data model *)

(** [JxlRustStatus] of jxl_rust.h; a value of the C enum outside the four
    named ones is [JXL_RUST_STATUS_OTHER]. *)
Inductive JxlRustStatus :=
| JXL_RUST_STATUS_OK
| JXL_RUST_STATUS_NEED_MORE_DATA
| JXL_RUST_STATUS_INVALID_DATA
| JXL_RUST_STATUS_ERROR
| JXL_RUST_STATUS_OTHER (code : Z).

Definition status_is_ok (s : JxlRustStatus) : bool :=
  match s with JXL_RUST_STATUS_OK => true | _ => false end.

Record JxlRustImageInfo := { info_width : Z; info_height : Z }.

(** [IntSize] / [OrientedIntSize] and [OrientedIntRect]. *)
Record IntSize := { width : Z; height : Z }.
Record IntRect := { rect_x : Z; rect_y : Z; rect_width : Z; rect_height : Z }.
Record SurfaceInvalidRect := { mInputSpaceRect : IntRect; mOutputSpaceRect : IntRect }.

(** The lexer states of nsJXLRustDecoder.h and the transitions a state
    handler returns. *)
Inductive State := JXL_DATA | FINISHED_JXL_DATA.

Inductive LexerTransition :=
| TerminateSuccess
| TerminateFailure
| ContinueUnbuffered (s : State).

Inductive TerminalState := SUCCESS | FAILURE.

(** [WriteState] of SurfacePipe.h. *)
Inductive WriteState := WS_NEED_MORE_DATA | WS_FINISHED | WS_FAILURE.

(** Observable effects of the driver, in the order it performs them.  Engine
    calls carry what the engine answered. *)
Inductive Event :=
| EvProcess (input : list Byte.byte) (result : JxlRustStatus)
| EvGetInfo (result : JxlRustStatus)
| EvIsFrameReady (ready : bool)
| EvCreatePipe (inputSize outputSize : IntSize)
| EvAllocPixels (count : Z)
| EvDecodeFrame (capacity : Z) (result : JxlRustStatus) (pixelsWritten : Z)
| EvWriteRow (row : list Z) (result : WriteState)
| EvPostSize (w h : Z)
| EvPostInvalidation (inputRect outputRect : IntRect)
| EvPostFrameStop
| EvPostDecodeDone
| EvAssertUnreachable.

(** The C interface of the Rust engine (jxl_rust.h).  [decode_frame] receives
    the pixel buffer (its length is the capacity passed by the driver) and
    returns the status, the number of pixels written and the buffer's new
    contents. *)
Record JxlRustApi (E : Type) := {
  jxl_rust_decoder_new : option E;
  jxl_rust_decoder_process_data : E -> list Byte.byte -> JxlRustStatus * E;
  jxl_rust_decoder_get_info : E -> JxlRustStatus * JxlRustImageInfo;
  jxl_rust_decoder_is_frame_ready : E -> bool;
  jxl_rust_decoder_decode_frame : E -> list Z -> JxlRustStatus * Z * list Z
}.

(** The surface pipe: [CreateSurfacePipe] takes the logical input size, the
    logical output size and the frame rectangle (formats are fixed to
    OS_RGBX by the driver); [WriteBuffer] consumes one input row. *)
Record SurfacePipeApi (P : Type) := {
  CreateSurfacePipe : IntSize -> IntSize -> IntRect -> option P;
  WriteBuffer : P -> list Z -> WriteState * P;
  TakeInvalidRect : P -> option SurfaceInvalidRect
}.

Arguments jxl_rust_decoder_new {E}.
Arguments jxl_rust_decoder_process_data {E}.
Arguments jxl_rust_decoder_get_info {E}.
Arguments jxl_rust_decoder_is_frame_ready {E}.
Arguments jxl_rust_decoder_decode_frame {E}.
Arguments CreateSurfacePipe {P}.
Arguments WriteBuffer {P}.
Arguments TakeInvalidRect {P}.

(** Modelled from the spec: the parts of the [Decoder] base class the driver
    calls (Decoder.h is not among the sources).  [IsMetadataDecode] says
    whether the session only wants the size; [requested_output] is the
    requested (possibly smaller) output size of a downscaling decode;
    [alloc_ok n] says whether a fallible [Vector] growth to [n] elements
    succeeds. *)
Record DecoderEnv := {
  IsMetadataDecode : bool;
  requested_output : option IntSize;
  alloc_ok : Z -> bool
}.

(** The decoder object: the engine handle, [mSize], the size posted to the
    image ([HasSize()] is [posted_size <> None]) and [mBuffer]. *)
Record Driver (E : Type) := {
  mRustDecoder : E;
  mSize : IntSize;
  posted_size : option IntSize;
  mBuffer : list Byte.byte
}.

Arguments mRustDecoder {E}.
Arguments mSize {E}.
Arguments posted_size {E}.
Arguments mBuffer {E}.

Definition set_decoder {E} (d : Driver E) (e : E) : Driver E :=
  {| mRustDecoder := e; mSize := mSize d; posted_size := posted_size d;
     mBuffer := mBuffer d |}.
Definition set_buffer {E} (d : Driver E) (b : list Byte.byte) : Driver E :=
  {| mRustDecoder := mRustDecoder d; mSize := mSize d;
     posted_size := posted_size d; mBuffer := b |}.
Definition post_size {E} (d : Driver E) (s : IntSize) : Driver E :=
  {| mRustDecoder := mRustDecoder d; mSize := s; posted_size := Some s;
     mBuffer := mBuffer d |}.

Definition HasSize {E} (d : Driver E) : bool :=
  match posted_size d with Some _ => true | None => false end.

(** The driver just after construction: [mSize(0, 0)], nothing posted, empty
    buffer. *)
Definition init_driver {E} (e : E) : Driver E :=
  {| mRustDecoder := e; mSize := {| width := 0; height := 0 |};
     posted_size := None; mBuffer := [] |}.

Section Driver.

Context {E P : Type} (api : JxlRustApi E) (pipes : SurfacePipeApi P)
  (env : DecoderEnv).

(** Modelled from the spec: [Decoder::OutputSize()], the requested output
    size when the decode downscales and otherwise the size posted by
    [PostSize] (zero before any size is posted). *)
Definition OutputSize (d : Driver E) : IntSize :=
  match requested_output env with
  | Some s => s
  | None =>
      match posted_size d with
      | Some s => s
      | None => {| width := 0; height := 0 |}
      end
  end.

(** [OrientedIntRect(OrientedIntPoint(0, 0), size)]. *)
Definition rect_at_origin (s : IntSize) : IntRect :=
  {| rect_x := 0; rect_y := 0; rect_width := width s; rect_height := height s |}.

(** The row loop of lines 138-145: [currentRow] is the rest of the pixel
    buffer from the current row on; it advances by [outputSize.width] after
    each row.  Returns whether every write succeeded. *)
Fixpoint WriteRows (pipe : P) (rows : nat) (rowWidth : nat)
  (currentRow : list Z) : bool * P * list Event :=
  match rows with
  | O => (true, pipe, [])
  | S rows' =>
      let row := firstn rowWidth currentRow in
      let '(result, pipe') := WriteBuffer pipes pipe row in
      match result with
      | WS_FAILURE => (false, pipe', [EvWriteRow row result])
      | _ =>
          let '(ok, pipe'', evs) :=
            WriteRows pipe' rows' rowWidth (skipn rowWidth currentRow) in
          (ok, pipe'', EvWriteRow row result :: evs)
      end
  end.

(** Lines 101-154: the frame path taken once the engine reports a frame
    ready. *)
Definition ExtractFrame (d : Driver E) : LexerTransition * list Event :=
  let outputSize := OutputSize d in
  let frameRect := rect_at_origin outputSize in
  let ev_pipe := EvCreatePipe outputSize outputSize in
  match CreateSurfacePipe pipes outputSize outputSize frameRect with
  | None => (TerminateFailure, [ev_pipe])
  | Some pipe =>
      let pixelCount := width outputSize * height outputSize in
      let ev_alloc := EvAllocPixels pixelCount in
      if negb (alloc_ok env pixelCount) then
        (TerminateFailure, [ev_pipe; ev_alloc])
      else
        let pixelBuffer := repeat 0 (Z.to_nat pixelCount) in
        let capacity := Z.of_nat (length pixelBuffer) in
        let '(status, pixelsWritten, pixels) :=
          jxl_rust_decoder_decode_frame api (mRustDecoder d) pixelBuffer in
        let evs0 := [ev_pipe; ev_alloc;
                     EvDecodeFrame capacity status pixelsWritten] in
        if negb (status_is_ok status) || negb (pixelsWritten =? pixelCount) then
          (TerminateFailure, evs0)
        else
          let '(ok, pipe', evs1) :=
            WriteRows pipe (Z.to_nat (height outputSize))
              (Z.to_nat (width outputSize)) pixels in
          if negb ok then (TerminateFailure, evs0 ++ evs1)
          else
            let evs2 :=
              match TakeInvalidRect pipes pipe' with
              | Some r => [EvPostInvalidation (mInputSpaceRect r)
                                              (mOutputSpaceRect r)]
              | None => []
              end in
            (TerminateSuccess,
             evs0 ++ evs1 ++ evs2 ++ [EvPostFrameStop; EvPostDecodeDone])
  end.

(** [nsJXLRustDecoder::ReadJXLData] (lines 63-183). *)
Definition ReadJXLData (d : Driver E) (aData : list Byte.byte)
  : LexerTransition * Driver E * list Event :=
  let buffered := negb (Nat.eqb (length (mBuffer d)) 0) in
  if buffered && negb (alloc_ok env (Z.of_nat (length (mBuffer d ++ aData))))
  then (TerminateFailure, d, [])
  else
    let buf := if buffered then mBuffer d ++ aData else mBuffer d in
    let input := if buffered then buf else aData in
    let '(status, e1) :=
      jxl_rust_decoder_process_data api (mRustDecoder d) input in
    let d1 := set_buffer (set_decoder d e1) buf in
    let ev0 := [EvProcess input status] in
    match status with
    | JXL_RUST_STATUS_OK =>
        let '(infoStatus, info) := jxl_rust_decoder_get_info api e1 in
        let ev1 := ev0 ++ [EvGetInfo infoStatus] in
        let '(d2, ev2, early) :=
          if status_is_ok infoStatus && negb (HasSize d1) then
            (post_size d1 {| width := info_width info;
                             height := info_height info |},
             ev1 ++ [EvPostSize (info_width info) (info_height info)],
             IsMetadataDecode env)
          else (d1, ev1, false) in
        if early then (TerminateSuccess, d2, ev2)
        else
          let ready := jxl_rust_decoder_is_frame_ready api e1 in
          let ev3 := ev2 ++ [EvIsFrameReady ready] in
          if ready then
            let '(t, evs) := ExtractFrame d2 in (t, d2, ev3 ++ evs)
          else (ContinueUnbuffered JXL_DATA, set_buffer d2 [], ev3)
    | JXL_RUST_STATUS_NEED_MORE_DATA =>
        if Nat.eqb (length buf) 0 && Nat.ltb 0 (length aData) then
          if alloc_ok env (Z.of_nat (length aData))
          then (ContinueUnbuffered JXL_DATA, set_buffer d1 aData, ev0)
          else (TerminateFailure, d1, ev0)
        else (ContinueUnbuffered JXL_DATA, d1, ev0)
    | JXL_RUST_STATUS_INVALID_DATA => (TerminateFailure, d1, ev0)
    | JXL_RUST_STATUS_ERROR => (TerminateFailure, d1, ev0)
    | JXL_RUST_STATUS_OTHER _ => (TerminateFailure, d1, ev0)
    end.

(** [nsJXLRustDecoder::FinishedJXLData] (lines 185-188): the
    [MOZ_ASSERT_UNREACHABLE] is recorded as [EvAssertUnreachable]. *)
Definition FinishedJXLData : LexerTransition * list Event :=
  (TerminateFailure, [EvAssertUnreachable]).

(** Modelled from the spec: the [StreamingLexer] in unbuffered mode (not among
    the sources).  Each delivered chunk goes to the handler of the current
    state; a terminal transition ends the session; when the stream ends
    without one, the lexer enters [FINISHED_JXL_DATA] (spec 4.1). *)
Definition terminal_of (t : LexerTransition) : option TerminalState :=
  match t with
  | TerminateSuccess => Some SUCCESS
  | TerminateFailure => Some FAILURE
  | ContinueUnbuffered _ => None
  end.

Fixpoint Lex (d : Driver E) (chunks : list (list Byte.byte))
  : TerminalState * Driver E * list Event :=
  match chunks with
  | [] =>
      let '(t, evs) := FinishedJXLData in
      (match terminal_of t with Some r => r | None => FAILURE end, d, evs)
  | c :: cs =>
      let '(t, d', evs) := ReadJXLData d c in
      match terminal_of t with
      | Some r => (r, d', evs)
      | None => let '(r, d'', evs') := Lex d' cs in (r, d'', evs ++ evs')
      end
  end.

(** [DoDecode]: the engine is created on first use, then the lexer runs. *)
Definition DoDecode (chunks : list (list Byte.byte))
  : TerminalState * list Event :=
  match jxl_rust_decoder_new api with
  | None => (FAILURE, [])
  | Some e => let '(r, _, evs) := Lex (init_driver e) chunks in (r, evs)
  end.

End Driver.

(** ** Trace helpers *)

Definition is_completion (ev : Event) : bool :=
  match ev with
  | EvPostInvalidation _ _ | EvPostFrameStop | EvPostDecodeDone => true
  | _ => false
  end.

Definition is_extraction (ev : Event) : bool :=
  match ev with
  | EvCreatePipe _ _ | EvAllocPixels _ | EvDecodeFrame _ _ _ | EvWriteRow _ _ => true
  | _ => false
  end.

Definition is_post_size (ev : Event) : bool :=
  match ev with EvPostSize _ _ => true | _ => false end.

Definition count_post_size (evs : list Event) : nat :=
  length (filter is_post_size evs).

Definition count_rows (evs : list Event) : nat :=
  length (filter (fun ev => match ev with EvWriteRow _ _ => true | _ => false end) evs).

(** The bytes the engine accepted: the inputs of the process calls that
    returned OK, in order. *)
Fixpoint accepted (evs : list Event) : list Byte.byte :=
  match evs with
  | [] => []
  | EvProcess i JXL_RUST_STATUS_OK :: evs' => i ++ accepted evs'
  | _ :: evs' => accepted evs'
  end.

Definition is_info_ok (ev : Event) : bool :=
  match ev with EvGetInfo JXL_RUST_STATUS_OK => true | _ => false end.

(** Whether some info query of the trace returned OK. *)
Definition info_obtained (evs : list Event) : bool := existsb is_info_ok evs.

Definition is_failure_status (s : JxlRustStatus) : bool :=
  match s with
  | JXL_RUST_STATUS_OK | JXL_RUST_STATUS_NEED_MORE_DATA => false
  | _ => true
  end.

(** The pipe creations, pixel allocations and frame decodes of a trace. *)
Definition is_frame_setup (ev : Event) : bool :=
  match ev with
  | EvCreatePipe _ _ | EvAllocPixels _ | EvDecodeFrame _ _ _ => true
  | _ => false
  end.

(** [nsJXLRustDecoder::Size()] (nsJXLRustDecoder.h, line 27). *)
Definition Size {E} (d : Driver E) : IntSize := mSize d.

(** The rows a trace writes to the pipe, in order. *)
Fixpoint written_rows (evs : list Event) : list (list Z) :=
  match evs with
  | [] => []
  | EvWriteRow r _ :: evs' => r :: written_rows evs'
  | _ :: evs' => written_rows evs'
  end.

(** The row [currentRow] points at on iteration [i] of the row loop, for rows
    of [w] pixels. *)
Definition row_slice (w : nat) (px : list Z) (i : nat) : list Z :=
  firstn w (skipn (i * w) px).

Definition count_ev (f : Event -> bool) (evs : list Event) : nat :=
  length (filter f evs).

Definition is_create_pipe (ev : Event) : bool :=
  match ev with EvCreatePipe _ _ => true | _ => false end.

Definition is_decode_frame (ev : Event) : bool :=
  match ev with EvDecodeFrame _ _ _ => true | _ => false end.

(** ** Concrete collaborators used by witnesses and counterexamples *)

Module Toy.

(** A toy image format: byte 0 is the width, byte 1 the height, then one
    byte per pixel; the byte 0xff is invalid anywhere.  The engine's state is
    the bytes it has accepted.  A call keeps nothing on NEED_MORE_DATA,
    accepts the whole span on OK, and on invalid data keeps what it parsed
    before the bad byte. *)
Definition bad (b : Byte.byte) : bool := Byte.eqb b Byte.xff.

Fixpoint good_prefix (s : list Byte.byte) : list Byte.byte :=
  match s with
  | [] => []
  | b :: s' => if bad b then [] else b :: good_prefix s'
  end.

Definition byte_z (b : Byte.byte) : Z := Z.of_nat (Byte.to_nat b).

Definition dims (s : list Byte.byte) : option (Z * Z) :=
  match s with
  | w :: h :: _ => Some (byte_z w, byte_z h)
  | _ => None
  end.

Definition process (acc span : list Byte.byte) : JxlRustStatus * list Byte.byte :=
  let s := acc ++ span in
  if existsb bad s then (JXL_RUST_STATUS_INVALID_DATA, good_prefix s)
  else match dims s with
       | None => (JXL_RUST_STATUS_NEED_MORE_DATA, acc)
       | Some _ => (JXL_RUST_STATUS_OK, s)
       end.

Definition get_info (s : list Byte.byte) : JxlRustStatus * JxlRustImageInfo :=
  match dims s with
  | Some (w, h) => (JXL_RUST_STATUS_OK, {| info_width := w; info_height := h |})
  | None => (JXL_RUST_STATUS_ERROR, {| info_width := 0; info_height := 0 |})
  end.

Definition is_frame_ready (s : list Byte.byte) : bool :=
  match dims s with
  | Some (w, h) => (w * h <=? Z.of_nat (length s) - 2)
  | None => false
  end.

(** Decodes the full frame and writes as many pixels as the buffer holds. *)
Definition decode_frame (s : list Byte.byte) (buf : list Z)
  : JxlRustStatus * Z * list Z :=
  match dims s with
  | Some (w, h) =>
      let px := map byte_z (firstn (Z.to_nat (w * h)) (skipn 2 s)) in
      let n := Nat.min (length buf) (length px) in
      (JXL_RUST_STATUS_OK, Z.of_nat n, firstn n px ++ skipn n buf)
  | None => (JXL_RUST_STATUS_ERROR, 0, buf)
  end.

Definition api : JxlRustApi (list Byte.byte) :=
  {| jxl_rust_decoder_new := Some [];
     jxl_rust_decoder_process_data := process;
     jxl_rust_decoder_get_info := get_info;
     jxl_rust_decoder_is_frame_ready := is_frame_ready;
     jxl_rust_decoder_decode_frame := decode_frame |}.

(** An engine that reports a frame ready before it can describe the image. *)
Definition frame_first_api : JxlRustApi unit :=
  {| jxl_rust_decoder_new := Some tt;
     jxl_rust_decoder_process_data := fun _ _ => (JXL_RUST_STATUS_OK, tt);
     jxl_rust_decoder_get_info :=
       fun _ => (JXL_RUST_STATUS_ERROR, {| info_width := 0; info_height := 0 |});
     jxl_rust_decoder_is_frame_ready := fun _ => true;
     jxl_rust_decoder_decode_frame := fun _ buf => (JXL_RUST_STATUS_OK, 0, buf) |}.

(** A pipe that accepts every row and reports its whole output as valid. *)
Definition pipes : SurfacePipeApi (IntSize * IntSize * nat) :=
  {| CreateSurfacePipe := fun i o _ => Some (i, o, O);
     WriteBuffer := fun '(i, o, n) _ =>
       (if Nat.eqb (S n) (Z.to_nat (height i)) then WS_FINISHED
        else WS_NEED_MORE_DATA, (i, o, S n));
     TakeInvalidRect := fun '(i, o, _) =>
       Some {| mInputSpaceRect := {| rect_x := 0; rect_y := 0;
                 rect_width := width i; rect_height := height i |};
               mOutputSpaceRect := {| rect_x := 0; rect_y := 0;
                 rect_width := width o; rect_height := height o |} |} |}.

Definition env_full : DecoderEnv :=
  {| IsMetadataDecode := false; requested_output := None;
     alloc_ok := fun _ => true |}.
Definition env_metadata : DecoderEnv :=
  {| IsMetadataDecode := true; requested_output := None;
     alloc_ok := fun _ => true |}.
Definition size_32x24 : IntSize := {| width := 32; height := 24 |}.
Definition env_downscale : DecoderEnv :=
  {| IsMetadataDecode := false; requested_output := Some size_32x24;
     alloc_ok := fun _ => true |}.

(** A pipe whose every row write fails. *)
Definition broken_pipes : SurfacePipeApi (IntSize * IntSize * nat) :=
  {| CreateSurfacePipe := CreateSurfacePipe pipes;
     WriteBuffer := fun p _ => (WS_FAILURE, p);
     TakeInvalidRect := TakeInvalidRect pipes |}.

(** A full decode in which no buffer can grow. *)
Definition env_no_alloc : DecoderEnv :=
  {| IsMetadataDecode := false; requested_output := None;
     alloc_ok := fun _ => false |}.

Definition b (n : nat) : Byte.byte :=
  match Byte.of_nat n with Some x => x | None => Byte.x00 end.

(** A 64x48 image of the toy format. *)
Definition image_64x48 : list Byte.byte := b 64 :: b 48 :: repeat (b 7) 3072.

(** The toy engine holding a complete 2x2 image whose size was posted. *)
Definition driver_2x2 : Driver (list Byte.byte) :=
  post_size (set_decoder (init_driver [])
               [b 2; b 2; b 1; b 2; b 3; b 4])
            {| width := 2; height := 2 |}.

(** The toy engine holding a complete 1x1 image whose size was posted. *)
Definition driver_1x1 : Driver (list Byte.byte) :=
  post_size (set_decoder (init_driver []) [b 1; b 1; b 9])
            {| width := 1; height := 1 |}.

End Toy.

(** ** Proofs *)

Ltac split_pairs :=
  repeat match goal with
  | H : (_, _) = (_, _) |- _ => inversion H; subst; clear H
  | H : context [match ?x with _ => _ end] |- _ =>
      destruct x eqn:?
  | |- context [match ?x with _ => _ end] => destruct x eqn:?
  end.

Ltac in_cases H :=
  repeat first
    [ rewrite in_app_iff in H
    | progress simpl in H
    | match type of H with _ \/ _ => destruct H as [H|H] end ].

(** Proves [In x l] for a concrete list by evaluation. *)
Ltac in_list :=
  vm_compute; repeat first [left; reflexivity | right].

Section Proofs.

Context {E P : Type} (api : JxlRustApi E) (pipes : SurfacePipeApi P)
  (env : DecoderEnv).

Lemma WriteRows_events pipe n w cur ok pipe' evs :
  WriteRows pipes pipe n w cur = (ok, pipe', evs) ->
  (forall ev, In ev evs -> exists r ws, ev = EvWriteRow r ws) /\
  (ok = true -> forall r ws, In (EvWriteRow r ws) evs -> ws <> WS_FAILURE).
Proof.
  revert pipe cur ok pipe' evs.
  induction n as [|n IH]; intros pipe cur ok pipe' evs H; simpl in H.
  - inversion H; subst. split; [intros ev [] | intros _ r ws []].
  - destruct (WriteBuffer pipes pipe (firstn w cur)) as [res p1] eqn:Hw.
    destruct res.
    3: { inversion H; subst. split.
         - intros ev [<-|[]]; eauto.
         - intros Hok; discriminate. }
    all: destruct (WriteRows pipes p1 n w (skipn w cur)) as [[ok1 p2] evs1] eqn:Hr;
      inversion H; subst; destruct (IH _ _ _ _ _ Hr) as [H1 H2]; split;
      [ intros ev [<-|Hin]; eauto
      | intros Hok r ws [Heq|Hin]; [inversion Heq; subst; discriminate | eauto] ].
Qed.

Lemma ExtractFrame_kinds d t evs :
  ExtractFrame api pipes env d = (t, evs) ->
  forall ev, In ev evs -> is_extraction ev = true \/ is_completion ev = true.
Proof.
  unfold ExtractFrame; cbv zeta; intros H; split_pairs; intros ev Hin;
    in_cases Hin; try (subst; simpl; auto; fail); try contradiction.
  all: match goal with Hr : WriteRows _ _ _ _ _ = _ |- _ =>
         destruct (WriteRows_events _ _ _ _ _ _ _ Hr) as [Hk _] end;
       destruct (Hk _ Hin) as (r & ws & ->); auto.
Qed.

Lemma ExtractFrame_terminal d t evs :
  ExtractFrame api pipes env d = (t, evs) ->
  t = TerminateSuccess \/ t = TerminateFailure.
Proof.
  unfold ExtractFrame; cbv zeta; intros H; split_pairs; auto.
Qed.

Lemma ExtractFrame_no_driver_event d t evs ev :
  ExtractFrame api pipes env d = (t, evs) -> In ev evs ->
  match ev with
  | EvProcess _ _ | EvGetInfo _ | EvIsFrameReady _ | EvPostSize _ _
  | EvAssertUnreachable => False
  | _ => True
  end.
Proof.
  intros H Hin. destruct (ExtractFrame_kinds _ _ _ H _ Hin) as [K|K];
    destruct ev; simpl in K; try discriminate; exact I.
Qed.

Lemma ExtractFrame_completion d t evs ev :
  ExtractFrame api pipes env d = (t, evs) -> In ev evs ->
  is_completion ev = true ->
  t = TerminateSuccess /\
  (exists cap n, In (EvAllocPixels n) evs /\
                 In (EvDecodeFrame cap JXL_RUST_STATUS_OK n) evs) /\
  (forall r ws, In (EvWriteRow r ws) evs -> ws <> WS_FAILURE).
Proof.
  unfold ExtractFrame; cbv zeta; intros H; split_pairs; intros Hin Hc;
    in_cases Hin; subst; simpl in Hc; try discriminate; try contradiction.
  all: match goal with Hr : WriteRows _ _ _ _ _ = _ |- _ =>
         destruct (WriteRows_events _ _ _ _ _ _ _ Hr) as [Hk Hok] end.
  all: try (destruct (Hk _ Hin) as (r & ws & ->); discriminate).
  all: match goal with Hb : negb ?ok = false |- _ =>
         apply negb_false_iff in Hb; subst ok end.
  all: match goal with
       | Hs : negb (status_is_ok ?j) || negb (?z =? ?n) = false |- _ =>
           apply orb_false_iff in Hs; destruct Hs as [Hs1 Hs2];
           apply negb_false_iff in Hs1, Hs2; apply Z.eqb_eq in Hs2; subst z;
           destruct j; try discriminate Hs1
       end.
  all: split; [reflexivity|split].
  all: try (do 2 eexists; split;
            [right; left; reflexivity | right; right; left; reflexivity]).
  all: intros r ws Hin'; in_cases Hin'; try discriminate; try contradiction;
       eapply Hok; eauto.
Qed.

Lemma ExtractFrame_start d t evs :
  ExtractFrame api pipes env d = (t, evs) ->
  let o := OutputSize env d in
  (exists evs', evs = EvCreatePipe o o :: evs') /\
  (forall pipe, CreateSurfacePipe pipes o o (rect_at_origin o) = Some pipe ->
   alloc_ok env (width o * height o) = true ->
   In (EvAllocPixels (width o * height o)) evs /\
   exists cap st n, In (EvDecodeFrame cap st n) evs).
Proof.
  unfold ExtractFrame; cbv zeta; intros H; split_pairs; split;
    try (eexists; reflexivity);
    intros pipe Hp Ha; try congruence;
    try (rewrite Ha in *; discriminate).
  all: split; [simpl; auto|].
  all: do 3 eexists; simpl; eauto.
Qed.

Lemma ReadJXLData_no_assert d c :
  ~ In EvAssertUnreachable (snd (ReadJXLData api pipes env d c)).
Proof.
  destruct (ReadJXLData api pipes env d c) as [[t d'] evs] eqn:H; simpl.
  unfold ReadJXLData in H; cbv zeta in H; split_pairs; intros Hin;
    in_cases Hin; try discriminate; try contradiction.
  all: match goal with Hx : ExtractFrame _ _ _ _ = _ |- _ =>
         exact (ExtractFrame_no_driver_event _ _ _ _ Hx Hin) end.
Qed.

(** The span handed to the engine is the pending buffer followed by the new
    chunk, whether or not reassembly is in progress. *)
Lemma read_input (d : Driver E) (c : list Byte.byte) :
  (if negb (Nat.eqb (length (mBuffer d)) 0) then mBuffer d ++ c else c)
  = mBuffer d ++ c.
Proof. destruct (mBuffer d); reflexivity. Qed.

Lemma ReadJXLData_failing_status d c st e1 :
  (mBuffer d = [] \/ alloc_ok env (Z.of_nat (length (mBuffer d ++ c))) = true) ->
  jxl_rust_decoder_process_data api (mRustDecoder d) (mBuffer d ++ c) = (st, e1) ->
  is_failure_status st = true ->
  exists d1, ReadJXLData api pipes env d c
             = (TerminateFailure, d1, [EvProcess (mBuffer d ++ c) st]).
Proof.
  intros Hbuf Hp Hst. unfold ReadJXLData; cbv zeta.
  destruct (mBuffer d) as [|b0 bs] eqn:Hb; simpl in *.
  - rewrite Hp. destruct st; try discriminate; eexists; reflexivity.
  - destruct Hbuf as [Hbuf|Hbuf]; [discriminate|]. rewrite Hbuf, Hp.
    destruct st; try discriminate; eexists; reflexivity.
Qed.

Lemma continue_no_frame_events d c s d' evs :
  ReadJXLData api pipes env d c = (ContinueUnbuffered s, d', evs) ->
  forall ev, In ev evs -> is_extraction ev = false /\ is_completion ev = false.
Proof.
  unfold ReadJXLData; cbv zeta; intros H; split_pairs; intros ev Hin;
    in_cases Hin; subst; auto; try contradiction.
  all: match goal with Hx : ExtractFrame _ _ _ _ = _ |- _ =>
         destruct (ExtractFrame_terminal _ _ _ Hx); discriminate end.
Qed.

(** C8: a process call that returns OK and lets the lexer continue leaves
    the pending buffer empty; the buffer is non-empty after a continuing
    step only when that step's call returned NEED_MORE_DATA, and it then
    holds exactly the span that call was given. *)
Theorem continue_after_ok_clears_buffer d c s d' evs :
  ReadJXLData api pipes env d c = (ContinueUnbuffered s, d', evs) ->
  (forall input, In (EvProcess input JXL_RUST_STATUS_OK) evs -> mBuffer d' = []) /\
  (mBuffer d' <> [] ->
   evs = [EvProcess (mBuffer d ++ c) JXL_RUST_STATUS_NEED_MORE_DATA] /\
   mBuffer d' = mBuffer d ++ c).
Proof.
  rewrite <- (read_input d c).
  unfold ReadJXLData; cbv zeta; intros H; split_pairs.
  all: try match goal with Hx : ExtractFrame _ _ _ _ = _ |- _ =>
         destruct (ExtractFrame_terminal _ _ _ Hx); discriminate end.
  all: split; [intros input Hin; in_cases Hin; try discriminate;
               try contradiction; reflexivity|].
  all: intros Hne; simpl in *; try congruence.
  all: destruct (mBuffer d) eqn:Hm; simpl in *; try discriminate;
       try congruence; split; reflexivity.
Qed.

Lemma ReadJXLData_completion d c t d' evs ev :
  ReadJXLData api pipes env d c = (t, d', evs) -> In ev evs ->
  is_completion ev = true ->
  t = TerminateSuccess /\
  (exists cap n, In (EvAllocPixels n) evs /\
                 In (EvDecodeFrame cap JXL_RUST_STATUS_OK n) evs) /\
  (forall r ws, In (EvWriteRow r ws) evs -> ws <> WS_FAILURE).
Proof.
  unfold ReadJXLData; cbv zeta; intros H; split_pairs; intros Hin Hc;
    in_cases Hin; subst; simpl in Hc; try discriminate; try contradiction;
    try congruence.
  all: match goal with Hx : ExtractFrame _ _ _ _ = _ |- _ =>
         destruct (ExtractFrame_completion _ _ _ _ Hx Hin Hc)
           as (-> & (cap & n & Ha & Hd) & Hw) end.
  all: split; [reflexivity | split;
         [ exists cap, n; split; apply in_or_app; right; exact Ha || exact Hd
         | intros r ws Hr; apply in_app_iff in Hr; destruct Hr as [Hr|Hr];
           [in_cases Hr; try discriminate; contradiction | eauto] ] ].
Qed.

Lemma OutputSize_set_buffer (d : Driver E) e b :
  OutputSize env (set_buffer (set_decoder d e) b) = OutputSize env d.
Proof. reflexivity. Qed.

(** C6: when the engine's process call returns INVALID_DATA, ERROR or any
    status outside the enumerated ones, the session ends in failure at once:
    the trace is that single process call, with no later engine call and no
    further chunk handed to the engine. *)
Theorem failing_status_terminates d c cs st e1 :
  (mBuffer d = [] \/ alloc_ok env (Z.of_nat (length (mBuffer d ++ c))) = true) ->
  jxl_rust_decoder_process_data api (mRustDecoder d) (mBuffer d ++ c) = (st, e1) ->
  is_failure_status st = true ->
  exists d', Lex api pipes env d (c :: cs)
             = (FAILURE, d', [EvProcess (mBuffer d ++ c) st]).
Proof.
  intros Hb Hp Hs.
  destruct (ReadJXLData_failing_status d c st e1 Hb Hp Hs) as [d1 Hr].
  exists d1. cbn [Lex]. rewrite Hr. reflexivity.
Qed.

(** C7: when the stream ends before a terminal result, the lexer's
    FINISHED_JXL_DATA handler fails the session and hits the
    [MOZ_ASSERT_UNREACHABLE]; no data-handling path ever hits that
    assertion, so it is distinct from a malformed-input failure. *)
Theorem end_of_stream_is_asserted_failure :
  FinishedJXLData = (TerminateFailure, [EvAssertUnreachable]) /\
  (forall d, Lex api pipes env d [] = (FAILURE, d, [EvAssertUnreachable])) /\
  (forall d c, ~ In EvAssertUnreachable (snd (ReadJXLData api pipes env d c))).
Proof.
  split; [reflexivity | split; [intros d; reflexivity | apply ReadJXLData_no_assert]].
Qed.

(** C9: the invalidation report, the frame-stop and the decode-done
    notifications appear in a session's trace only when the session succeeded
    after a decode-frame call that returned OK with exactly the allocated
    pixel count, and no row write of the session failed. *)
Theorem completion_only_on_full_success d chunks r d' evs ev :
  Lex api pipes env d chunks = (r, d', evs) ->
  In ev evs -> is_completion ev = true ->
  r = SUCCESS /\
  (exists cap n, In (EvAllocPixels n) evs /\
                 In (EvDecodeFrame cap JXL_RUST_STATUS_OK n) evs) /\
  (forall row ws, In (EvWriteRow row ws) evs -> ws <> WS_FAILURE).
Proof.
  revert d r d' evs. induction chunks as [|c cs IH]; intros d r d' evs H Hin Hc.
  - cbn [Lex] in H. inversion H; subst. destruct Hin as [<-|[]]. discriminate.
  - cbn [Lex] in H. destruct (ReadJXLData api pipes env d c) as [[t d1] evs1] eqn:Hr.
    destruct t as [| |s]; cbn [terminal_of] in H.
    + inversion H; subst.
      destruct (ReadJXLData_completion _ _ _ _ _ _ Hr Hin Hc) as (_ & Hx & Hw).
      auto.
    + inversion H; subst.
      destruct (ReadJXLData_completion _ _ _ _ _ _ Hr Hin Hc) as (Ht & _); discriminate.
    + destruct (Lex api pipes env d1 cs) as [[r1 d2] evs2] eqn:Hl.
      inversion H; subst.
      pose proof (continue_no_frame_events _ _ _ _ _ Hr) as Hq.
      apply in_app_iff in Hin. destruct Hin as [Hin|Hin].
      * destruct (Hq _ Hin) as [_ Hf]; congruence.
      * destruct (IH _ _ _ _ Hl Hin Hc) as (-> & (cap & n & Ha & Hd) & Hw).
        split; [reflexivity | split].
        -- exists cap, n; split; apply in_or_app; right; assumption.
        -- intros row ws Hw'. apply in_app_iff in Hw'. destruct Hw' as [Hw'|Hw'].
           ++ destruct (Hq _ Hw') as [Hf _]; discriminate.
           ++ eauto.
Qed.

(** C10: on an OK status at which the engine reports a frame ready, the
    driver goes down the frame path (pipe creation, then pixel allocation and
    frame decode when those succeed) even though the info query failed, and
    whatever the recorded size is. *)
Theorem frame_path_without_info d c e1 infoSt info :
  (mBuffer d = [] \/ alloc_ok env (Z.of_nat (length (mBuffer d ++ c))) = true) ->
  jxl_rust_decoder_process_data api (mRustDecoder d) (mBuffer d ++ c)
    = (JXL_RUST_STATUS_OK, e1) ->
  jxl_rust_decoder_get_info api e1 = (infoSt, info) ->
  infoSt <> JXL_RUST_STATUS_OK ->
  jxl_rust_decoder_is_frame_ready api e1 = true ->
  let o := OutputSize env d in
  let evs := snd (ReadJXLData api pipes env d c) in
  In (EvCreatePipe o o) evs /\
  (forall pipe, CreateSurfacePipe pipes o o (rect_at_origin o) = Some pipe ->
   alloc_ok env (width o * height o) = true ->
   In (EvAllocPixels (width o * height o)) evs /\
   exists cap st n, In (EvDecodeFrame cap st n) evs).
Proof.
  intros Hb Hp Hi Hni Hready. cbv zeta. unfold ReadJXLData; cbv zeta.
  assert (Hbuf : negb (Nat.eqb (length (mBuffer d)) 0)
            && negb (alloc_ok env (Z.of_nat (length (mBuffer d ++ c)))) = false
          /\ (if negb (Nat.eqb (length (mBuffer d)) 0)
              then (if negb (Nat.eqb (length (mBuffer d)) 0)
                    then mBuffer d ++ c else mBuffer d)
              else c) = mBuffer d ++ c).
  { destruct Hb as [Hb|Hb]; rewrite ?Hb; [split; reflexivity|].
    destruct (mBuffer d); [split; reflexivity|]. cbn. split; reflexivity. }
  destruct Hbuf as [Hc Hin]. rewrite Hc, Hin, Hp, Hi.
  replace (status_is_ok infoSt) with false by (destruct infoSt; simpl; congruence).
  cbn [andb]. rewrite Hready.
  destruct (ExtractFrame api pipes env _) as [t evs] eqn:Hx.
  destruct (ExtractFrame_start _ _ _ Hx) as [[evs' Heq] Hrest]. cbv zeta in Hrest.
  rewrite OutputSize_set_buffer in Heq, Hrest.
  cbn [snd]. split.
  - apply in_or_app; right. rewrite Heq. left. reflexivity.
  - intros pipe Hpipe Ha. destruct (Hrest pipe Hpipe Ha) as [H1 (cap & st & n & H2)].
    split; [apply in_or_app; right; exact H1|].
    exists cap, st, n. apply in_or_app; right; exact H2.
Qed.

Lemma count_post_size_app l1 l2 :
  count_post_size (l1 ++ l2) = (count_post_size l1 + count_post_size l2)%nat.
Proof. unfold count_post_size. rewrite filter_app, length_app. reflexivity. Qed.

Lemma accepted_app l1 l2 : accepted (l1 ++ l2) = accepted l1 ++ accepted l2.
Proof.
  induction l1 as [|ev l1 IH]; [reflexivity|].
  destruct ev as [i st| | | | | | | | | | |]; try destruct st; simpl;
    rewrite ?IH, ?app_assoc; reflexivity.
Qed.

Lemma ExtractFrame_no_size d t evs :
  ExtractFrame api pipes env d = (t, evs) ->
  count_post_size evs = 0%nat /\ info_obtained evs = false.
Proof.
  intros H. pose proof (fun ev => ExtractFrame_no_driver_event d t evs ev H) as Hk.
  clear H. induction evs as [|ev evs IH]; [split; reflexivity|].
  assert (Hev := Hk ev (or_introl eq_refl)).
  destruct IH as [IH1 IH2]; [intros ev' Hin; apply Hk; right; exact Hin|].
  destruct ev; try contradiction; split; assumption.
Qed.

Ltac frame_part :=
  match goal with Hx : ExtractFrame _ _ _ _ = _ |- _ =>
    let H1 := fresh "Hx1" in
    let H2 := fresh "Hx2" in
    destruct (ExtractFrame_no_size _ _ _ Hx) as [H1 H2];
    rewrite ?count_post_size_app, ?H1; unfold info_obtained in *;
    rewrite ?existsb_app, ?H2
  end.

Lemma ReadJXLData_post_size d c t d' evs :
  ReadJXLData api pipes env d c = (t, d', evs) ->
  match posted_size d with
  | Some _ => count_post_size evs = 0%nat /\ posted_size d' <> None
  | None =>
      if info_obtained evs
      then count_post_size evs = 1%nat /\ posted_size d' <> None
      else count_post_size evs = 0%nat /\ posted_size d' = None
  end.
Proof.
  unfold ReadJXLData; cbv zeta; intros H.
  destruct (posted_size d) as [sz|] eqn:Hps; split_pairs;
    unfold HasSize, post_size, set_buffer, set_decoder in *;
    cbn [posted_size mBuffer] in *; rewrite ?Hps in *;
    try frame_part; unfold count_post_size, info_obtained in *; simpl in *;
    try discriminate; try (split; [reflexivity|congruence]).
  all: repeat match goal with
       | Hs : context [status_is_ok ?j] |- _ => destruct j; simpl in *
       end; try discriminate; try (split; [reflexivity|congruence]);
       congruence.
Qed.

(** The continuing steps keep the bytes the engine accepted followed by the
    pending buffer equal to everything delivered so far. *)
Lemma ReadJXLData_accepted d c s d' evs :
  ReadJXLData api pipes env d c = (ContinueUnbuffered s, d', evs) ->
  accepted evs ++ mBuffer d' = mBuffer d ++ c.
Proof.
  unfold ReadJXLData; cbv zeta; intros H; split_pairs.
  all: try match goal with Hx : ExtractFrame _ _ _ _ = _ |- _ =>
         destruct (ExtractFrame_terminal _ _ _ Hx); discriminate end.
  all: simpl; rewrite ?app_nil_r.
  all: destruct (mBuffer d) eqn:Hm; simpl in *; try discriminate;
       try reflexivity; try congruence.
  all: match goal with
       | Hb : (0 <? length ?l)%nat = false |- _ =>
           destruct l; simpl in Hb; try discriminate; reflexivity
       end.
Qed.

Lemma ReadJXLData_metadata d c t d' evs :
  IsMetadataDecode env = true -> posted_size d = None ->
  ReadJXLData api pipes env d c = (t, d', evs) ->
  info_obtained evs = true ->
  t = TerminateSuccess /\ (forall ev, In ev evs -> is_extraction ev = false) /\
  exists pre w h, evs = pre ++ [EvPostSize w h].
Proof.
  intros Hmeta Hps. unfold ReadJXLData; cbv zeta; intros H; split_pairs;
    unfold HasSize, post_size, set_buffer, set_decoder in *;
    cbn [posted_size mBuffer] in *; rewrite ?Hps, ?Hmeta in *;
    try frame_part; unfold info_obtained in *; simpl in *; intros Hi;
    try discriminate.
  all: repeat match goal with
       | Hs : context [status_is_ok ?j] |- _ => destruct j; simpl in *
       end; try discriminate; try congruence.
  all: split; [reflexivity|split].
  all: try (intros ev Hin; in_cases Hin; subst; try contradiction; reflexivity).
  all: eexists [_; _], _, _; reflexivity.
Qed.

(** C4 (as amended): in a session started before any size was posted, the
    size is posted at most once, and it is posted exactly when some info
    query of the session returned OK; the driver queries info only right
    after a process call returned OK. *)
Theorem size_posted_once_when_info_obtained d chunks r d' evs :
  posted_size d = None ->
  Lex api pipes env d chunks = (r, d', evs) ->
  (count_post_size evs <= 1)%nat /\
  (info_obtained evs = true <-> count_post_size evs = 1%nat).
Proof.
  intros Hps Hl.
  assert (Hgen : forall chunks d r d' evs,
    Lex api pipes env d chunks = (r, d', evs) ->
    match posted_size d with
    | Some _ => count_post_size evs = 0%nat
    | None => if info_obtained evs then count_post_size evs = 1%nat
              else count_post_size evs = 0%nat
    end).
  { clear. induction chunks as [|c cs IH]; intros d r d' evs Hl.
    - cbn [Lex] in Hl. inversion Hl; subst.
      destruct (posted_size d'); reflexivity.
    - cbn [Lex] in Hl.
      destruct (ReadJXLData api pipes env d c) as [[t d1] evs1] eqn:Hr.
      pose proof (ReadJXLData_post_size _ _ _ _ _ Hr) as Hs.
      destruct t as [| |st]; cbn [terminal_of] in Hl.
      1-2: inversion Hl; subst; destruct (posted_size d);
           [tauto | destruct (info_obtained evs); tauto].
      destruct (Lex api pipes env d1 cs) as [[r1 d2] evs2] eqn:Hl2.
      inversion Hl; subst. specialize (IH _ _ _ _ Hl2).
      unfold info_obtained in *. rewrite count_post_size_app, existsb_app.
      destruct (posted_size d) as [sz|].
      + destruct Hs as [Hs1 Hs2]. destruct (posted_size d1); [|congruence]. lia.
      + destruct (existsb is_info_ok evs1); destruct Hs as [Hs1 Hs2].
        * destruct (posted_size d1); [|congruence]. simpl. lia.
        * rewrite Hs2 in IH. simpl. destruct (existsb is_info_ok evs2); lia. }
  specialize (Hgen _ _ _ _ _ Hl). rewrite Hps in Hgen.
  destruct (info_obtained evs); rewrite Hgen; split; try lia; split; intros; (lia || discriminate || reflexivity).
Qed.

(** C5 (as amended): in a metadata-only session started before any size was
    posted, if some info query returns OK the session ends in success right
    after posting the size, and no pipe creation, pixel allocation, frame
    decode or row write happens in it.  (The frame path itself does not test
    for a metadata-only session.) *)
Theorem metadata_session_stops_at_info d chunks r d' evs :
  IsMetadataDecode env = true -> posted_size d = None ->
  Lex api pipes env d chunks = (r, d', evs) ->
  info_obtained evs = true ->
  r = SUCCESS /\ (forall ev, In ev evs -> is_extraction ev = false) /\
  exists pre w h, evs = pre ++ [EvPostSize w h].
Proof.
  intros Hmeta. revert d r d' evs.
  induction chunks as [|c cs IH]; intros d r d' evs Hps Hl Hi.
  - cbn [Lex] in Hl. inversion Hl; subst. discriminate.
  - cbn [Lex] in Hl.
    destruct (ReadJXLData api pipes env d c) as [[t d1] evs1] eqn:Hr.
    destruct t as [| |st]; cbn [terminal_of] in Hl.
    + inversion Hl; subst.
      destruct (ReadJXLData_metadata _ _ _ _ _ Hmeta Hps Hr Hi) as (_ & Hx & Hp).
      auto.
    + inversion Hl; subst.
      destruct (ReadJXLData_metadata _ _ _ _ _ Hmeta Hps Hr Hi) as (Ht & _).
      discriminate.
    + destruct (Lex api pipes env d1 cs) as [[r1 d2] evs2] eqn:Hl2.
      inversion Hl; subst.
      pose proof (ReadJXLData_post_size _ _ _ _ _ Hr) as Hs. rewrite Hps in Hs.
      destruct (info_obtained evs1) eqn:Hi1.
      * destruct (ReadJXLData_metadata _ _ _ _ _ Hmeta Hps Hr Hi1) as (Ht & _).
        discriminate.
      * destruct Hs as [_ Hps1].
        unfold info_obtained in Hi, Hi1. rewrite existsb_app, Hi1 in Hi.
        destruct (IH _ _ _ _ Hps1 Hl2 Hi) as (-> & Hx & pre & w & h & ->).
        split; [reflexivity|split].
        -- intros ev Hin. apply in_app_iff in Hin. destruct Hin as [Hin|Hin].
           ++ exact (proj1 (continue_no_frame_events _ _ _ _ _ Hr _ Hin)).
           ++ auto.
        -- exists (evs1 ++ pre), w, h. rewrite app_assoc. reflexivity.
Qed.

(** C2 (as amended): over any split of the input into chunks that the
    session consumes to the end of the stream, the bytes of the process calls
    that returned OK, followed by the pending buffer, are exactly the
    delivered bytes: each call receives everything delivered since the last
    call that returned OK, bytes are neither lost nor repeated.  The session's
    outcome can still depend on the split, because the driver ends at the
    first terminal result and never hands the later chunks to the engine. *)
Theorem engine_sees_each_byte_once d chunks r d' evs :
  Lex api pipes env d chunks = (r, d', evs) ->
  In EvAssertUnreachable evs ->
  accepted evs ++ mBuffer d' = mBuffer d ++ concat chunks.
Proof.
  revert d r d' evs. induction chunks as [|c cs IH]; intros d r d' evs Hl Ha.
  - cbn [Lex] in Hl. inversion Hl; subst. simpl. rewrite app_nil_r. reflexivity.
  - cbn [Lex] in Hl.
    destruct (ReadJXLData api pipes env d c) as [[t d1] evs1] eqn:Hr.
    pose proof (ReadJXLData_no_assert d c) as Hna. rewrite Hr in Hna; simpl in Hna.
    destruct t as [| |st]; cbn [terminal_of] in Hl.
    1-2: inversion Hl; subst; contradiction.
    destruct (Lex api pipes env d1 cs) as [[r1 d2] evs2] eqn:Hl2.
    inversion Hl; subst.
    apply in_app_iff in Ha. destruct Ha as [Ha|Ha]; [contradiction|].
    rewrite accepted_app, <- app_assoc, (IH _ _ _ _ Hl2 Ha), app_assoc.
    rewrite (ReadJXLData_accepted _ _ _ _ _ Hr). simpl. rewrite app_assoc.
    reflexivity.
Qed.

(** The frame path compares the engine's result with the pixel count of the
    output size: a non-OK status or any other count ends the session in
    failure right after the decode call, before any row is written and
    without any completion notification. *)
Theorem decode_mismatch_fails_before_rows d pipe st n px :
  let o := OutputSize env d in
  let pc := width o * height o in
  CreateSurfacePipe pipes o o (rect_at_origin o) = Some pipe ->
  alloc_ok env pc = true ->
  jxl_rust_decoder_decode_frame api (mRustDecoder d) (repeat 0 (Z.to_nat pc))
    = (st, n, px) ->
  st <> JXL_RUST_STATUS_OK \/ n <> pc ->
  ExtractFrame api pipes env d =
    (TerminateFailure, [EvCreatePipe o o; EvAllocPixels pc;
                        EvDecodeFrame (Z.of_nat (Z.to_nat pc)) st n]).
Proof.
  cbv zeta. intros Hp Ha Hd Hm. unfold ExtractFrame; cbv zeta.
  rewrite Hp, Ha, Hd, repeat_length. cbn [negb].
  replace (negb (status_is_ok st) || negb (n =? width (OutputSize env d)
                                             * height (OutputSize env d)))
    with true; [reflexivity|].
  destruct Hm as [Hm|Hm].
  - destruct st; cbn; try reflexivity; congruence.
  - rewrite (proj2 (Z.eqb_neq _ _) Hm), orb_true_r. reflexivity.
Qed.

Lemma firstn_add_split {A} (a c : nat) (l : list A) :
  firstn (a + c) l = firstn a l ++ firstn c (skipn a l).
Proof.
  revert l; induction a as [|a IH]; intros [|x l]; simpl;
    rewrite ?firstn_nil; auto.
  f_equal. apply IH.
Qed.

Lemma concat_row_slices w l k n :
  concat (map (row_slice w l) (seq k n)) = firstn (n * w) (skipn (k * w) l).
Proof.
  revert k; induction n as [|n IH]; intros k; [reflexivity|].
  cbn [seq map concat]. rewrite IH. unfold row_slice.
  change (S n * w)%nat with (w + n * w)%nat.
  rewrite firstn_add_split, skipn_skipn. reflexivity.
Qed.

Lemma written_rows_app l1 l2 :
  written_rows (l1 ++ l2) = written_rows l1 ++ written_rows l2.
Proof.
  induction l1 as [|ev l1 IH]; [reflexivity|].
  destruct ev; simpl; rewrite ?IH; reflexivity.
Qed.

Lemma WriteRows_rows pipe n w l k cur p' evs :
  cur = skipn (k * w) l ->
  WriteRows pipes pipe n w cur = (true, p', evs) ->
  written_rows evs = map (row_slice w l) (seq k n).
Proof.
  revert pipe k cur p' evs.
  induction n as [|n IH]; intros pipe k cur p' evs Hc H; simpl in H.
  - inversion H; reflexivity.
  - destruct (WriteBuffer pipes pipe (firstn w cur)) as [res p1] eqn:Hw.
    destruct res; [| | discriminate H].
    all: destruct (WriteRows pipes p1 n w (skipn w cur)) as [[ok1 p2] evs1] eqn:Hr;
      inversion H; subst.
    all: cbn [written_rows seq map]; unfold row_slice at 1; f_equal.
    all: eapply (IH p1 (S k)); swap 1 2;
      [eassumption | rewrite skipn_skipn; reflexivity].
Qed.

Lemma WriteRows_failure pipe n w cur ok p' evs row :
  WriteRows pipes pipe n w cur = (ok, p', evs) ->
  In (EvWriteRow row WS_FAILURE) evs ->
  ok = false /\ exists pre, evs = pre ++ [EvWriteRow row WS_FAILURE].
Proof.
  revert pipe cur ok p' evs.
  induction n as [|n IH]; intros pipe cur ok p' evs H Hin; simpl in H.
  - inversion H; subst; contradiction.
  - destruct (WriteBuffer pipes pipe (firstn w cur)) as [res p1] eqn:Hw.
    destruct res.
    3: { inversion H; subst. destruct Hin as [Heq|[]]. inversion Heq; subst.
         split; [reflexivity | exists []; reflexivity]. }
    all: destruct (WriteRows pipes p1 n w (skipn w cur)) as [[ok1 p2] evs1] eqn:Hr;
      inversion H; subst.
    all: destruct Hin as [Heq|Hin]; [discriminate Heq|].
    all: destruct (IH _ _ _ _ _ Hr Hin) as [-> [pre ->]]; split; [reflexivity|].
    all: eexists (_ :: pre); reflexivity.
Qed.

Lemma WriteRows_filter pipe n w cur ok p' evs (f : Event -> bool) :
  WriteRows pipes pipe n w cur = (ok, p', evs) ->
  (forall r ws, f (EvWriteRow r ws) = false) -> filter f evs = [].
Proof.
  intros H Hf. destruct (WriteRows_events _ _ _ _ _ _ _ H) as [Hk _]. clear H.
  induction evs as [|ev evs IH]; [reflexivity|].
  destruct (Hk ev (or_introl eq_refl)) as (r & ws & ->). simpl. rewrite Hf.
  apply IH. intros ev' Hin. apply Hk. right. exact Hin.
Qed.

Ltac status_check_ok :=
  match goal with
  | Hs : negb (status_is_ok ?j) || negb (?z =? _) = false |- _ =>
      apply orb_false_iff in Hs; destruct Hs as [Hs1 Hs2];
      apply negb_false_iff in Hs1, Hs2; apply Z.eqb_eq in Hs2; subst z;
      destruct j; try discriminate Hs1
  end.

(** After a successful frame extraction, the rows written to the pipe are,
    in order, the [height] consecutive slices of [width] pixels of the buffer
    the engine decoded into, so that together they are its first
    [width * height] pixels. *)
Theorem extract_rows_are_slices d evs :
  ExtractFrame api pipes env d = (TerminateSuccess, evs) ->
  let o := OutputSize env d in
  let w := Z.to_nat (width o) in
  exists px,
    jxl_rust_decoder_decode_frame api (mRustDecoder d)
      (repeat 0 (Z.to_nat (width o * height o)))
      = (JXL_RUST_STATUS_OK, width o * height o, px) /\
    written_rows evs = map (row_slice w px) (seq 0 (Z.to_nat (height o))) /\
    concat (written_rows evs) = firstn (Z.to_nat (height o) * w) px.
Proof.
  unfold ExtractFrame; cbv zeta; intros H; split_pairs; status_check_ok.
  all: match goal with Hb : negb ?ok = false |- _ =>
         apply negb_false_iff in Hb; subst ok end.
  all: match goal with Hr : WriteRows _ _ _ _ _ = (true, _, _) |- _ =>
         pose proof (WriteRows_rows _ _ _ _ 0 _ _ _ eq_refl Hr) as Hrows end.
  all: eexists; split; [first [eassumption | reflexivity]|].
  all: cbn [written_rows]; rewrite !written_rows_app; cbn [written_rows app];
       rewrite Hrows, ?app_nil_r.
  all: split; [reflexivity | rewrite concat_row_slices; reflexivity].
Qed.

(** A failed row write ends the frame: the session fails, and that write is
    the last event of the frame path (no later row, no invalidation, no
    frame-stop or decode-done). *)
Theorem row_failure_ends_frame d t evs row :
  ExtractFrame api pipes env d = (t, evs) ->
  In (EvWriteRow row WS_FAILURE) evs ->
  t = TerminateFailure /\ exists pre, evs = pre ++ [EvWriteRow row WS_FAILURE].
Proof.
  unfold ExtractFrame; cbv zeta; intros H Hin; split_pairs;
    pose proof Hin as Hin'; in_cases Hin'; try discriminate; try contradiction.
  all: match goal with Hr : WriteRows _ _ _ _ _ = _ |- _ =>
         destruct (WriteRows_failure _ _ _ _ _ _ _ _ Hr Hin') as [Hok [pre ->]] end;
       try (subst; simpl in *; discriminate).
  all: split; [reflexivity|].
  all: eexists (_ :: _ :: _ :: _); reflexivity.
Qed.

Lemma ExtractFrame_once d t evs :
  ExtractFrame api pipes env d = (t, evs) ->
  count_ev is_create_pipe evs = 1%nat /\ (count_ev is_decode_frame evs <= 1)%nat.
Proof.
  unfold ExtractFrame, count_ev; cbv zeta; intros H; split_pairs;
    simpl; rewrite ?filter_app; simpl; try (split; [reflexivity|lia]).
  all: match goal with Hr : WriteRows _ _ _ _ _ = _ |- _ =>
         rewrite (WriteRows_filter _ _ _ _ _ _ _ is_create_pipe Hr),
                 (WriteRows_filter _ _ _ _ _ _ _ is_decode_frame Hr)
           by (intros; reflexivity) end.
  all: simpl; split; [reflexivity|lia].
Qed.

Lemma no_extraction_counts evs :
  (forall ev, In ev evs -> is_extraction ev = false) ->
  count_ev is_create_pipe evs = 0%nat /\ count_ev is_decode_frame evs = 0%nat.
Proof.
  unfold count_ev. induction evs as [|ev evs IH]; intros Hk; [split; reflexivity|].
  assert (Hev := Hk ev (or_introl eq_refl)).
  destruct IH as [IH1 IH2]; [intros ev' Hin; apply Hk; right; exact Hin|].
  destruct ev; try discriminate Hev; split; assumption.
Qed.

Lemma ReadJXLData_frame_count d c t d' evs :
  ReadJXLData api pipes env d c = (t, d', evs) ->
  (count_ev is_create_pipe evs <= 1)%nat /\ (count_ev is_decode_frame evs <= 1)%nat.
Proof.
  unfold ReadJXLData; cbv zeta; intros H; split_pairs.
  all: try match goal with Hx : ExtractFrame _ _ _ _ = _ |- _ =>
         destruct (ExtractFrame_once _ _ _ Hx) as [Hc1 Hc2];
         unfold count_ev in *; simpl; rewrite ?filter_app, ?length_app; simpl;
         split; lia end.
  all: unfold count_ev; simpl; split; lia.
Qed.

(** A session builds at most one surface pipe and calls the engine's frame
    decode at most once, however the input is split: every frame path ends
    the session. *)
Theorem one_frame_per_session d chunks r d' evs :
  Lex api pipes env d chunks = (r, d', evs) ->
  (count_ev is_create_pipe evs <= 1)%nat /\ (count_ev is_decode_frame evs <= 1)%nat.
Proof.
  revert d r d' evs. induction chunks as [|c cs IH]; intros d r d' evs Hl.
  - cbn [Lex] in Hl. inversion Hl; subst. unfold count_ev; simpl; lia.
  - cbn [Lex] in Hl.
    destruct (ReadJXLData api pipes env d c) as [[t d1] evs1] eqn:Hr.
    destruct t as [| |s]; cbn [terminal_of] in Hl.
    1-2: inversion Hl; subst; exact (ReadJXLData_frame_count _ _ _ _ _ Hr).
    destruct (Lex api pipes env d1 cs) as [[r1 d2] evs2] eqn:Hl2.
    inversion Hl; subst.
    destruct (no_extraction_counts evs1) as [H1 H2].
    { intros ev Hin. exact (proj1 (continue_no_frame_events _ _ _ _ _ Hr _ Hin)). }
    destruct (IH _ _ _ _ Hl2) as [H3 H4].
    unfold count_ev in *. rewrite !filter_app, !length_app. lia.
Qed.

Lemma ExtractFrame_success_end d evs :
  ExtractFrame api pipes env d = (TerminateSuccess, evs) ->
  exists pre, evs = pre ++ [EvPostFrameStop; EvPostDecodeDone].
Proof.
  unfold ExtractFrame; cbv zeta; intros H; split_pairs;
    rewrite !app_assoc; eexists (_ :: _ :: _ :: _); reflexivity.
Qed.

Lemma ReadJXLData_success d c d' evs :
  ReadJXLData api pipes env d c = (TerminateSuccess, d', evs) ->
  (exists pre, evs = pre ++ [EvPostFrameStop; EvPostDecodeDone]) \/
  (IsMetadataDecode env = true /\ exists pre w h, evs = pre ++ [EvPostSize w h]).
Proof.
  unfold ReadJXLData; cbv zeta; intros H; split_pairs.
  all: try match goal with Hx : ExtractFrame _ _ _ _ = _ |- _ =>
         destruct (ExtractFrame_success_end _ _ Hx) as [pre ->];
         left; eexists; apply app_assoc end.
  all: right; split; [first [assumption | reflexivity] |
                      eexists [_; _], _, _; reflexivity].
Qed.

(** A session succeeds only in two ways: a full frame was written and the
    trace ends with the frame-stop and decode-done notifications, or the
    decode is metadata-only and the trace ends with the size report. *)
Theorem session_success_shape d chunks d' evs :
  Lex api pipes env d chunks = (SUCCESS, d', evs) ->
  (exists pre, evs = pre ++ [EvPostFrameStop; EvPostDecodeDone]) \/
  (IsMetadataDecode env = true /\ exists pre w h, evs = pre ++ [EvPostSize w h]).
Proof.
  revert d d' evs. induction chunks as [|c cs IH]; intros d d' evs Hl.
  - cbn [Lex] in Hl. discriminate.
  - cbn [Lex] in Hl.
    destruct (ReadJXLData api pipes env d c) as [[t d1] evs1] eqn:Hr.
    destruct t as [| |s]; cbn [terminal_of] in Hl.
    + inversion Hl; subst. exact (ReadJXLData_success _ _ _ _ Hr).
    + discriminate.
    + destruct (Lex api pipes env d1 cs) as [[r1 d2] evs2] eqn:Hl2.
      inversion Hl; subst.
      destruct (IH _ _ _ Hl2) as [[pre ->] | [Hm (pre & w & h & ->)]].
      * left. exists (evs1 ++ pre). rewrite app_assoc. reflexivity.
      * right. split; [exact Hm|]. exists (evs1 ++ pre), w, h.
        rewrite app_assoc. reflexivity.
Qed.

Lemma ExtractFrame_no_post d t evs :
  ExtractFrame api pipes env d = (t, evs) -> filter is_post_size evs = [].
Proof.
  intros H. apply length_zero_iff_nil. exact (proj1 (ExtractFrame_no_size _ _ _ H)).
Qed.

Lemma ReadJXLData_size d c t d' evs :
  ReadJXLData api pipes env d c = (t, d', evs) ->
  (filter is_post_size evs = [] /\ Size d' = Size d /\
   posted_size d' = posted_size d) \/
  (posted_size d = None /\ exists w h,
     filter is_post_size evs = [EvPostSize w h] /\
     Size d' = {| width := w; height := h |} /\
     posted_size d' = Some {| width := w; height := h |}).
Proof.
  intros H.
  destruct (posted_size d) as [sz|] eqn:Hps; unfold ReadJXLData in H; cbv zeta in H;
    split_pairs;
    unfold Size, HasSize, post_size, set_buffer, set_decoder in *;
    cbn [posted_size mBuffer mSize] in *; rewrite ?Hps in *;
    rewrite ?filter_app;
    try match goal with Hx : ExtractFrame _ _ _ _ = _ |- _ =>
          rewrite (ExtractFrame_no_post _ _ _ Hx) end;
    simpl in *; rewrite ?andb_false_r in *; try discriminate.
  all: first [ left; split; [reflexivity | split; reflexivity]
             | right; split; [reflexivity | do 2 eexists; split;
                               [reflexivity | split; reflexivity]] ].
Qed.

(** Over a session, the size the decoder records ([Size()], [mSize]) and
    whether a size was posted change at most once: either no size is
    reported and both are unchanged, or the session started with no size,
    reports exactly one size w x h, and [Size()] then returns w x h. *)
Theorem size_recorded_once_per_session d chunks r d' evs :
  Lex api pipes env d chunks = (r, d', evs) ->
  (filter is_post_size evs = [] /\ Size d' = Size d /\
   posted_size d' = posted_size d) \/
  (posted_size d = None /\ exists w h,
     filter is_post_size evs = [EvPostSize w h] /\
     Size d' = {| width := w; height := h |} /\
     posted_size d' = Some {| width := w; height := h |}).
Proof.
  revert d r d' evs. induction chunks as [|c cs IH]; intros d r d' evs Hl.
  - cbn [Lex] in Hl. inversion Hl; subst. left. auto.
  - cbn [Lex] in Hl.
    destruct (ReadJXLData api pipes env d c) as [[t d1] evs1] eqn:Hr.
    pose proof (ReadJXLData_size _ _ _ _ _ Hr) as Hs.
    destruct t as [| |s]; cbn [terminal_of] in Hl.
    1-2: inversion Hl; subst; exact Hs.
    destruct (Lex api pipes env d1 cs) as [[r1 d2] evs2] eqn:Hl2.
    inversion Hl; subst. rewrite filter_app.
    destruct Hs as [(F1 & S1 & P1) | (N1 & w1 & h1 & F1 & S1 & P1)];
      destruct (IH _ _ _ _ Hl2) as [(F2 & S2 & P2) | (N2 & w2 & h2 & F2 & S2 & P2)];
      rewrite F1, F2.
    + left. split; [reflexivity|]. split; congruence.
    + right. split; [congruence|]. exists w2, h2. auto.
    + right. split; [exact N1|]. exists w1, h1. split; [reflexivity|]. split; congruence.
    + congruence.
Qed.

(** When the pending buffer holds data and growing it by the new chunk fails
    (lines 71-74), the session ends in failure before any engine call, with
    the decoder state untouched. *)
Theorem failed_append_ends_session d c cs :
  mBuffer d <> [] ->
  alloc_ok env (Z.of_nat (length (mBuffer d ++ c))) = false ->
  Lex api pipes env d (c :: cs) = (FAILURE, d, []).
Proof.
  intros Hne Ha. cbn [Lex]. unfold ReadJXLData; cbv zeta.
  destruct (mBuffer d) as [|x l] eqn:Hm; [congruence|].
  cbn [length Nat.eqb negb andb]. rewrite Ha. reflexivity.
Qed.

(** When the engine asks for more data on a non-empty chunk that arrived with
    an empty pending buffer and the chunk cannot be copied into the buffer
    (lines 164-169), the session fails right after that single engine call,
    with the buffer still empty. *)
Theorem failed_copy_ends_session d c cs e1 :
  mBuffer d = [] -> c <> [] ->
  jxl_rust_decoder_process_data api (mRustDecoder d) c
    = (JXL_RUST_STATUS_NEED_MORE_DATA, e1) ->
  alloc_ok env (Z.of_nat (length c)) = false ->
  exists d', Lex api pipes env d (c :: cs)
             = (FAILURE, d', [EvProcess c JXL_RUST_STATUS_NEED_MORE_DATA]) /\
             mBuffer d' = [].
Proof.
  intros Hm Hc Hp Ha. cbn [Lex]. unfold ReadJXLData; cbv zeta.
  rewrite Hm. cbn [length Nat.eqb negb andb]. rewrite Hp.
  destruct c as [|x l]; [congruence|]. cbn [length] in Ha.
  cbn [length Nat.eqb Nat.ltb Nat.leb andb]. rewrite Ha. eexists; split; reflexivity.
Qed.

End Proofs.

(** ** Concrete sessions *)

(** C1 (the code diverges): a downscaling decode of a 64x48 image to 32x24.
    The driver posts the 64x48 size, then builds the pipe with the requested
    32x24 size as both its input and its output size, allocates 32*24 = 768
    pixels and asks the engine for 768 pixels: it decodes at the smaller
    size, where the full size 64x48 was to be the pipe's input and the
    buffer's size. *)
Theorem downscale_decodes_at_output_size :
  let '(r, evs) :=
    DoDecode Toy.api Toy.pipes Toy.env_downscale [Toy.image_64x48] in
  filter is_post_size evs = [EvPostSize 64 48] /\
  filter is_frame_setup evs =
    [EvCreatePipe Toy.size_32x24 Toy.size_32x24; EvAllocPixels 768;
     EvDecodeFrame 768 JXL_RUST_STATUS_OK 768] /\
  r = SUCCESS.
Proof. vm_compute. split; [reflexivity | split; reflexivity]. Qed.

(** C3 (the code diverges): in the same session the engine reports 768
    pixels written for an image of 64*48 = 3072 pixels, yet the driver
    streams 24 rows to the pipe, posts the completion notifications and the
    session succeeds: the count is checked against the output size, not
    against the image's width times height. *)
Theorem partial_pixel_count_is_rendered :
  let '(r, evs) :=
    DoDecode Toy.api Toy.pipes Toy.env_downscale [Toy.image_64x48] in
  filter is_post_size evs = [EvPostSize 64 48] /\
  filter (fun ev => match ev with EvDecodeFrame _ _ _ => true | _ => false end) evs
    = [EvDecodeFrame 768 JXL_RUST_STATUS_OK 768] /\
  768 <> 64 * 48 /\
  count_rows evs = 24%nat /\
  filter is_completion evs <> [] /\
  r = SUCCESS.
Proof.
  vm_compute. split; [reflexivity | split; [reflexivity | split;
    [discriminate | split; [reflexivity | split; [discriminate | reflexivity]]]]].
Qed.

(** C2 counterexample: the toy stream [1; 1; 7; 0xff] (a complete 1x1 image
    followed by an invalid byte).  Delivered as one chunk the engine rejects
    it and the session fails; delivered as [1; 1; 7] then [0xff] the frame is
    extracted from the first chunk and the session succeeds. *)
Lemma chunk_split_changes_outcome :
  fst (DoDecode Toy.api Toy.pipes Toy.env_full
         [[Toy.b 1; Toy.b 1; Toy.b 7; Byte.xff]]) = FAILURE /\
  fst (DoDecode Toy.api Toy.pipes Toy.env_full
         [[Toy.b 1; Toy.b 1; Toy.b 7]; [Byte.xff]]) = SUCCESS.
Proof. split; vm_compute; reflexivity. Qed.

(** C4 counterexample: on the stream [1; 1; 0xff] the engine parses the 1x1
    header and then rejects the invalid byte; its info query would now
    answer OK, but the driver fails on the INVALID_DATA status without
    querying, so the size is never reported. *)
Lemma info_available_without_size_report :
  Toy.process [] [Toy.b 1; Toy.b 1; Byte.xff]
    = (JXL_RUST_STATUS_INVALID_DATA, [Toy.b 1; Toy.b 1]) /\
  fst (Toy.get_info [Toy.b 1; Toy.b 1]) = JXL_RUST_STATUS_OK /\
  let '(r, evs) :=
    DoDecode Toy.api Toy.pipes Toy.env_full [[Toy.b 1; Toy.b 1; Byte.xff]] in
  r = FAILURE /\ count_post_size evs = 0%nat.
Proof. vm_compute. split; [reflexivity | split; [reflexivity | split; reflexivity]]. Qed.

(** C5 counterexample: a metadata-only session with an engine that reports a
    frame ready while its info query fails.  The driver never obtains the
    size, and goes down the frame path: it creates a pipe, allocates the
    pixel buffer and calls the frame decode. *)
Lemma metadata_session_extracts_frame :
  IsMetadataDecode Toy.env_metadata = true /\
  let '(r, evs) :=
    DoDecode Toy.frame_first_api Toy.pipes Toy.env_metadata [[Toy.b 1]] in
  count_post_size evs = 0%nat /\
  filter is_frame_setup evs =
    [EvCreatePipe {| width := 0; height := 0 |} {| width := 0; height := 0 |};
     EvAllocPixels 0; EvDecodeFrame 0 JXL_RUST_STATUS_OK 0] /\
  r = SUCCESS.
Proof. vm_compute. split; [reflexivity | split; [reflexivity | split; reflexivity]]. Qed.

(** Witness of C8: a two-byte chunk completes the toy header of a 2x1
    image; the engine returns OK without a frame ready and the driver
    continues. *)
Lemma continue_after_ok_clears_buffer_witness :
  exists d' evs,
    ReadJXLData Toy.api Toy.pipes Toy.env_full (init_driver []) [Toy.b 2; Toy.b 1]
      = (ContinueUnbuffered JXL_DATA, d', evs) /\
    (forall input, In (EvProcess input JXL_RUST_STATUS_OK) evs -> mBuffer d' = []) /\
    (mBuffer d' <> [] ->
     evs = [EvProcess (mBuffer (init_driver (@nil Byte.byte)) ++ [Toy.b 2; Toy.b 1])
              JXL_RUST_STATUS_NEED_MORE_DATA] /\
     mBuffer d' = mBuffer (init_driver (@nil Byte.byte)) ++ [Toy.b 2; Toy.b 1]).
Proof.
  set (R := ReadJXLData Toy.api Toy.pipes Toy.env_full (init_driver [])
              [Toy.b 2; Toy.b 1]).
  assert (H : R = (ContinueUnbuffered JXL_DATA, snd (fst R), snd R))
    by (vm_compute; reflexivity).
  exists (snd (fst R)), (snd R). split; [exact H|].
  exact (continue_after_ok_clears_buffer Toy.api Toy.pipes Toy.env_full _ _ _ _ _ H).
Defined.

(** Witness of C6: the first chunk is the invalid byte 0xff. *)
Lemma failing_status_terminates_witness :
  exists d', Lex Toy.api Toy.pipes Toy.env_full (init_driver []) [[Byte.xff]]
             = (FAILURE, d', [EvProcess (mBuffer (init_driver (@nil Byte.byte)) ++ [Byte.xff])
                                        JXL_RUST_STATUS_INVALID_DATA]).
Proof.
  apply (failing_status_terminates Toy.api Toy.pipes Toy.env_full
           (init_driver []) [Byte.xff] [] JXL_RUST_STATUS_INVALID_DATA []).
  - left; reflexivity.
  - vm_compute; reflexivity.
  - reflexivity.
Defined.

(** Witness of C9: a complete 1x1 toy image in one chunk. *)
Lemma completion_only_on_full_success_witness :
  exists r d' evs,
    Lex Toy.api Toy.pipes Toy.env_full (init_driver []) [[Toy.b 1; Toy.b 1; Toy.b 9]]
      = (r, d', evs) /\ In EvPostFrameStop evs /\
    r = SUCCESS /\
    (exists cap n, In (EvAllocPixels n) evs /\
                   In (EvDecodeFrame cap JXL_RUST_STATUS_OK n) evs) /\
    (forall row ws, In (EvWriteRow row ws) evs -> ws <> WS_FAILURE).
Proof.
  set (R := Lex Toy.api Toy.pipes Toy.env_full (init_driver [])
              [[Toy.b 1; Toy.b 1; Toy.b 9]]).
  assert (H : R = (fst (fst R), snd (fst R), snd R)) by (vm_compute; reflexivity).
  assert (Hin : In EvPostFrameStop (snd R)) by in_list.
  exists (fst (fst R)), (snd (fst R)), (snd R). split; [exact H|]. split; [exact Hin|].
  exact (completion_only_on_full_success Toy.api Toy.pipes Toy.env_full
           _ _ _ _ _ _ H Hin eq_refl).
Defined.

(** Witness of C10: an engine that reports a frame ready while its info
    query fails, from a fresh driver. *)
Lemma frame_path_without_info_witness :
  let o := OutputSize Toy.env_full (init_driver tt) in
  let evs := snd (ReadJXLData Toy.frame_first_api Toy.pipes Toy.env_full
                    (init_driver tt) [Toy.b 1]) in
  In (EvCreatePipe o o) evs /\
  (forall pipe, CreateSurfacePipe Toy.pipes o o (rect_at_origin o) = Some pipe ->
   Toy.env_full.(alloc_ok) (width o * height o) = true ->
   In (EvAllocPixels (width o * height o)) evs /\
   exists cap st n, In (EvDecodeFrame cap st n) evs).
Proof.
  apply (frame_path_without_info Toy.frame_first_api Toy.pipes Toy.env_full
           (init_driver tt) [Toy.b 1] tt JXL_RUST_STATUS_ERROR
           {| info_width := 0; info_height := 0 |}).
  - left; reflexivity.
  - reflexivity.
  - reflexivity.
  - discriminate.
  - reflexivity.
Defined.

(** Witness of C4: the header of a 2x1 image, then the end of the stream. *)
Lemma size_posted_once_when_info_obtained_witness :
  exists r d' evs,
    Lex Toy.api Toy.pipes Toy.env_full (init_driver []) [[Toy.b 2; Toy.b 1]]
      = (r, d', evs) /\
    (count_post_size evs <= 1)%nat /\
    (info_obtained evs = true <-> count_post_size evs = 1%nat).
Proof.
  set (R := Lex Toy.api Toy.pipes Toy.env_full (init_driver [])
              [[Toy.b 2; Toy.b 1]]).
  assert (H : R = (fst (fst R), snd (fst R), snd R)) by (vm_compute; reflexivity).
  exists (fst (fst R)), (snd (fst R)), (snd R). split; [exact H|].
  exact (size_posted_once_when_info_obtained Toy.api Toy.pipes Toy.env_full
           (init_driver []) _ _ _ _ eq_refl H).
Defined.

(** Witness of C5: a metadata-only session over the header of a 1x1 image. *)
Lemma metadata_session_stops_at_info_witness :
  exists r d' evs,
    Lex Toy.api Toy.pipes Toy.env_metadata (init_driver []) [[Toy.b 1; Toy.b 1]]
      = (r, d', evs) /\ info_obtained evs = true /\
    r = SUCCESS /\ (forall ev, In ev evs -> is_extraction ev = false) /\
    exists pre w h, evs = pre ++ [EvPostSize w h].
Proof.
  set (R := Lex Toy.api Toy.pipes Toy.env_metadata (init_driver [])
              [[Toy.b 1; Toy.b 1]]).
  assert (H : R = (fst (fst R), snd (fst R), snd R)) by (vm_compute; reflexivity).
  assert (Hi : info_obtained (snd R) = true) by (vm_compute; reflexivity).
  exists (fst (fst R)), (snd (fst R)), (snd R). split; [exact H|]. split; [exact Hi|].
  exact (metadata_session_stops_at_info Toy.api Toy.pipes Toy.env_metadata
           (init_driver []) _ _ _ _ eq_refl eq_refl H Hi).
Defined.

(** Witness of C2: the toy stream [3; 1; 5] split as [3] and [1; 5], which
    the session consumes to the end: the first call returns NEED_MORE_DATA
    and the byte is buffered, the second gets the whole buffer and returns
    OK without a frame ready. *)
Lemma engine_sees_each_byte_once_witness :
  exists r d' evs,
    Lex Toy.api Toy.pipes Toy.env_full (init_driver []) [[Toy.b 3]; [Toy.b 1; Toy.b 5]]
      = (r, d', evs) /\ In EvAssertUnreachable evs /\
    accepted evs ++ mBuffer d'
      = mBuffer (init_driver (@nil Byte.byte)) ++ concat [[Toy.b 3]; [Toy.b 1; Toy.b 5]].
Proof.
  set (R := Lex Toy.api Toy.pipes Toy.env_full (init_driver [])
              [[Toy.b 3]; [Toy.b 1; Toy.b 5]]).
  assert (H : R = (fst (fst R), snd (fst R), snd R)) by (vm_compute; reflexivity).
  assert (Ha : In EvAssertUnreachable (snd R)) by in_list.
  exists (fst (fst R)), (snd (fst R)), (snd R). split; [exact H|]. split; [exact Ha|].
  exact (engine_sees_each_byte_once Toy.api Toy.pipes Toy.env_full
           (init_driver []) _ _ _ _ H Ha).
Defined.

(** Witness of the frame-count check: a 1x1 size was posted, and the engine
    reports OK with no pixel written. *)
Lemma decode_mismatch_fails_before_rows_witness :
  ExtractFrame Toy.frame_first_api Toy.pipes Toy.env_full
    (post_size (init_driver tt) {| width := 1; height := 1 |})
  = (TerminateFailure,
     [EvCreatePipe {| width := 1; height := 1 |} {| width := 1; height := 1 |};
      EvAllocPixels 1; EvDecodeFrame 1 JXL_RUST_STATUS_OK 0]).
Proof.
  apply (decode_mismatch_fails_before_rows Toy.frame_first_api Toy.pipes Toy.env_full
           (post_size (init_driver tt) {| width := 1; height := 1 |})
           ({| width := 1; height := 1 |}, {| width := 1; height := 1 |}, O)
           JXL_RUST_STATUS_OK 0 [0]).
  - reflexivity.
  - reflexivity.
  - reflexivity.
  - right; discriminate.
Defined.

(** Witness of the size record: the header of a 2x1 image, then the end of
    the stream. *)
Lemma size_recorded_once_per_session_witness :
  exists r d' evs,
    Lex Toy.api Toy.pipes Toy.env_full (init_driver []) [[Toy.b 2; Toy.b 1]]
      = (r, d', evs) /\
    ((filter is_post_size evs = [] /\ Size d' = Size (init_driver (@nil Byte.byte)) /\
      posted_size d' = posted_size (init_driver (@nil Byte.byte))) \/
     (posted_size (init_driver (@nil Byte.byte)) = None /\ exists w h,
        filter is_post_size evs = [EvPostSize w h] /\
        Size d' = {| width := w; height := h |} /\
        posted_size d' = Some {| width := w; height := h |})).
Proof.
  set (R := Lex Toy.api Toy.pipes Toy.env_full (init_driver [])
              [[Toy.b 2; Toy.b 1]]).
  assert (H : R = (fst (fst R), snd (fst R), snd R)) by (vm_compute; reflexivity).
  exists (fst (fst R)), (snd (fst R)), (snd R). split; [exact H|].
  exact (size_recorded_once_per_session Toy.api Toy.pipes Toy.env_full
           (init_driver []) _ _ _ _ H).
Defined.

(** Witness of the row slices: the 2x2 image is written as rows [1; 2] and
    [3; 4]. *)
Lemma extract_rows_are_slices_witness :
  exists evs,
    ExtractFrame Toy.api Toy.pipes Toy.env_full Toy.driver_2x2
      = (TerminateSuccess, evs) /\
    written_rows evs = [[1; 2]; [3; 4]] /\
    let o := OutputSize Toy.env_full Toy.driver_2x2 in
    let w := Z.to_nat (width o) in
    exists px,
      jxl_rust_decoder_decode_frame Toy.api (mRustDecoder Toy.driver_2x2)
        (repeat 0 (Z.to_nat (width o * height o)))
        = (JXL_RUST_STATUS_OK, width o * height o, px) /\
      written_rows evs = map (row_slice w px) (seq 0 (Z.to_nat (height o))) /\
      concat (written_rows evs) = firstn (Z.to_nat (height o) * w) px.
Proof.
  set (R := ExtractFrame Toy.api Toy.pipes Toy.env_full Toy.driver_2x2).
  assert (H : R = (TerminateSuccess, snd R)) by (vm_compute; reflexivity).
  exists (snd R). split; [exact H|]. split; [vm_compute; reflexivity|].
  exact (extract_rows_are_slices Toy.api Toy.pipes Toy.env_full _ _ H).
Defined.

(** Witness of the row failure: a 1x1 frame written to a pipe whose writes
    all fail. *)
Lemma row_failure_ends_frame_witness :
  exists t evs,
    ExtractFrame Toy.api Toy.broken_pipes Toy.env_full Toy.driver_1x1 = (t, evs) /\
    In (EvWriteRow [9] WS_FAILURE) evs /\
    t = TerminateFailure /\ exists pre, evs = pre ++ [EvWriteRow [9] WS_FAILURE].
Proof.
  set (R := ExtractFrame Toy.api Toy.broken_pipes Toy.env_full Toy.driver_1x1).
  assert (H : R = (fst R, snd R)) by (vm_compute; reflexivity).
  assert (Hin : In (EvWriteRow [9] WS_FAILURE) (snd R)) by in_list.
  exists (fst R), (snd R). split; [exact H|]. split; [exact Hin|].
  exact (row_failure_ends_frame Toy.api Toy.broken_pipes Toy.env_full _ _ _ _ H Hin).
Defined.

(** Witness of the single frame: a complete 1x1 image in one chunk. *)
Lemma one_frame_per_session_witness :
  exists r d' evs,
    Lex Toy.api Toy.pipes Toy.env_full (init_driver []) [[Toy.b 1; Toy.b 1; Toy.b 9]]
      = (r, d', evs) /\
    count_ev is_decode_frame evs = 1%nat /\
    (count_ev is_create_pipe evs <= 1)%nat /\ (count_ev is_decode_frame evs <= 1)%nat.
Proof.
  set (R := Lex Toy.api Toy.pipes Toy.env_full (init_driver [])
              [[Toy.b 1; Toy.b 1; Toy.b 9]]).
  assert (H : R = (fst (fst R), snd (fst R), snd R)) by (vm_compute; reflexivity).
  exists (fst (fst R)), (snd (fst R)), (snd R). split; [exact H|].
  split; [vm_compute; reflexivity|].
  exact (one_frame_per_session Toy.api Toy.pipes Toy.env_full _ _ _ _ _ H).
Defined.

(** Witness of the success shape: a complete 1x1 image over two chunks. *)
Lemma session_success_shape_witness :
  exists d' evs,
    Lex Toy.api Toy.pipes Toy.env_full (init_driver [])
      [[Toy.b 1]; [Toy.b 1; Toy.b 9]] = (SUCCESS, d', evs) /\
    ((exists pre, evs = pre ++ [EvPostFrameStop; EvPostDecodeDone]) \/
     (IsMetadataDecode Toy.env_full = true /\
      exists pre w h, evs = pre ++ [EvPostSize w h])).
Proof.
  set (R := Lex Toy.api Toy.pipes Toy.env_full (init_driver [])
              [[Toy.b 1]; [Toy.b 1; Toy.b 9]]).
  assert (H : R = (SUCCESS, snd (fst R), snd R)) by (vm_compute; reflexivity).
  exists (snd (fst R)), (snd R). split; [exact H|].
  exact (session_success_shape Toy.api Toy.pipes Toy.env_full _ _ _ _ H).
Defined.

(** Witness of the failed append: one byte is pending and no buffer can
    grow. *)
Lemma failed_append_ends_session_witness :
  Lex Toy.api Toy.pipes Toy.env_no_alloc
    (set_buffer (init_driver []) [Toy.b 1]) [[Toy.b 1]]
  = (FAILURE, set_buffer (init_driver []) [Toy.b 1], []).
Proof.
  apply (failed_append_ends_session Toy.api Toy.pipes Toy.env_no_alloc
           (set_buffer (init_driver []) [Toy.b 1]) [Toy.b 1] []).
  - discriminate.
  - reflexivity.
Defined.

(** Witness of the failed copy: a one-byte first chunk, on which the toy
    engine asks for more data, and no buffer can grow. *)
Lemma failed_copy_ends_session_witness :
  exists d', Lex Toy.api Toy.pipes Toy.env_no_alloc (init_driver []) [[Toy.b 1]]
             = (FAILURE, d', [EvProcess [Toy.b 1] JXL_RUST_STATUS_NEED_MORE_DATA]) /\
             mBuffer d' = [].
Proof.
  apply (failed_copy_ends_session Toy.api Toy.pipes Toy.env_no_alloc
           (init_driver []) [Toy.b 1] [] []).
  - reflexivity.
  - discriminate.
  - vm_compute; reflexivity.
  - reflexivity.
Defined.

End JXL.

